(** * i.worldview.toar: Earth-Sun distance and DN -> radiance -> reflectance

    A shallow embedding of [utc_to_esd.py] and of [main] in
    [i.worldview.toar.py] (with the shell sibling [i.wv.toar.py] for the
    r.mapcalc expressions it writes).

    Numbers.  The date arithmetic of [utc_to_esd.py] only uses rational
    constants, so it is modelled over [Q] (exact decimals, executable);
    [jd_to_esd] uses [math.cos] and is modelled over [R].  Python floats are
    idealised as exact values; Python's ["%f"] formatting, which the script
    uses to write numbers into r.mapcalc expressions, is modelled as rounding
    to 6 decimals ([fmt_f_Q], [fmt_f_R]). *)

From Stdlib Require Import ZArith QArith Qround Qabs Qreals Reals Lra Lia.
From Stdlib Require Import String Ascii List Bool.
Import ListNotations.
Open Scope string_scope.

(** ** Errors and results (Python exceptions) *)

Inductive py_error :=
| ValueError          (* int()/float() of a bad string, jd_to_esd's check *)
| KeyError            (* CF_BW_ESUN[band] for an unknown band *)
| GrassFatal.         (* grass.fatal(...) *)

Inductive result (A : Type) :=
| Ok : A -> result A
| Err : py_error -> result A.
Arguments Ok {A} _.
Arguments Err {A} _.

Definition bind {A B} (m : result A) (f : A -> result B) : result B :=
  match m with Ok a => f a | Err e => Err e end.

Notation "x <- m ;; k" := (bind m (fun x => k))
  (at level 61, m at next level, right associativity).

(** ** Python's int() and float() on strings (Python 2) *)

Module PyStr.

Local Open Scope char_scope.

Definition is_space (c : ascii) : bool :=
  match c with
  | " " | "009" | "010" | "011" | "012" | "013" => true
  | _ => false
  end.

Fixpoint lstrip (s : string) : string :=
  match s with
  | EmptyString => EmptyString
  | String c r => if is_space c then lstrip r else s
  end.

Definition rev_str (s : string) : string :=
  string_of_list_ascii (rev (list_ascii_of_string s)).

(** [str.strip()] *)
Definition strip (s : string) : string := rev_str (lstrip (rev_str (lstrip s))).

Definition digit_val (c : ascii) : option Z :=
  let n := nat_of_ascii c in
  if (48 <=? n)%nat && (n <=? 57)%nat then Some (Z.of_nat (n - 48)) else None.

(** Reads a maximal run of digits: (value, number of digits, rest). *)
Fixpoint digits_acc (acc : Z) (k : nat) (s : string) : Z * nat * string :=
  match s with
  | String c r =>
      match digit_val c with
      | Some d => digits_acc (acc * 10 + d)%Z (S k) r
      | None => (acc, k, s)
      end
  | EmptyString => (acc, k, s)
  end.

Definition sign_of (s : string) : Z * string :=
  match s with
  | String "-" r => ((-1)%Z, r)
  | String "+" r => (1%Z, r)
  | _ => (1%Z, s)
  end.

(** [int(s)] for a string [s]: optional whitespace, an optional sign, one
    or more decimal digits, optional whitespace; ValueError otherwise. *)
Definition py_int (s : string) : result Z :=
  let '(sg, r) := sign_of (strip s) in
  match digits_acc 0 0 r with
  | (v, S _, EmptyString) => Ok (sg * v)%Z
  | _ => Err ValueError
  end.

(** Optional exponent part of a float literal. *)
Definition exponent (s : string) : option Z :=
  match s with
  | EmptyString => Some 0%Z
  | String c r =>
      if (c =? "e") || (c =? "E") then
        let '(sg, r') := sign_of r in
        match digits_acc 0 0 r' with
        | (v, S _, EmptyString) => Some (sg * v)%Z
        | _ => None
        end
      else None
  end.

(** [float(s)] for a string [s] holding a finite decimal literal
    ([digits[.digits][e[+-]digits]], at least one digit in the mantissa);
    the spellings inf / nan are not covered (no claim feeds them in). *)
Definition py_float (s : string) : result Q :=
  let '(sg, r) := sign_of (strip s) in
  let '(ip, ki, r1) := digits_acc 0 0 r in
  let '(fp, kf, r2) :=
    match r1 with
    | String "." r1' => digits_acc 0 0 r1'
    | _ => (0%Z, 0%nat, r1)
    end in
  match (ki + kf)%nat, exponent r2 with
  | S _, Some e =>
      let mant := (Qmake (sg * (ip * 10 ^ Z.of_nat kf + fp)) 1
                   / Qmake (10 ^ Z.of_nat kf) 1)%Q in
      Ok (if (0 <=? e)%Z then mant * Qmake (10 ^ e) 1
          else mant / Qmake (10 ^ (- e)) 1)%Q
  | _, _ => Err ValueError
  end.

Definition truthy (s : string) : bool :=
  match s with EmptyString => false | _ => true end.

End PyStr.
Import PyStr.

(** Python's slice [s[a:b]] (clamped at the end of the string, as Python). *)
Definition slice (a b : nat) (s : string) : string := substring a (b - a) s.

(** Python 2's [int(x)] on a float: truncation toward zero. *)
Definition py_trunc (q : Q) : Z := Z.quot (Qnum q) (Zpos (Qden q)).

(** ** utc_to_esd.py *)

(** The dictionary [acq_utc] built by [extract_time_elements]. *)
Record acq_utc := {
  u_year : Z; u_month : Z; u_day : Z;
  u_hours : Z; u_minutes : Z; u_seconds : Q }.

(** [extract_time_elements(utc)], January/February modification included. *)
Definition extract_time_elements (utc : string) : result acq_utc :=
  year <- py_int (slice 0 4 utc) ;;
  month <- py_int (slice 5 7 utc) ;;
  let '(year, month) :=
    if (month =? 1)%Z || (month =? 2)%Z then ((year - 1)%Z, (month + 12)%Z)
    else (year, month) in
  day <- py_int (slice 8 10 utc) ;;
  hours <- py_int (slice 11 13 utc) ;;
  minutes <- py_int (slice 14 16 utc) ;;
  seconds <- py_float (slice 17 26 utc) ;;
  Ok {| u_year := year; u_month := month; u_day := day;
        u_hours := hours; u_minutes := minutes; u_seconds := seconds |}.

(** [universal_time(hh, mm, ss)] = int(hh) + int(mm)/60. + float(ss)/3600. *)
Definition universal_time (hh mm : Z) (ss : Q) : Q :=
  (inject_Z hh + inject_Z mm / 60 + ss / 3600)%Q.

(** [julian_day(year, month, day, ut)]; [year / 100] and [A / 4] are
    Python 2 integer divisions (floor). *)
Definition julian_day (year month day : Z) (ut : Q) : Q :=
  let A := (year / 100)%Z in
  let B := (2 - A + A / 4)%Z in
  (inject_Z (py_trunc (365.25 * inject_Z (year + 4716)))
   + inject_Z (py_trunc (30.6001 * inject_Z (month + 1)))
   + inject_Z day + ut / 24.0 + inject_Z B - 1525.5)%Q.

(** [math.radians] *)
Definition radians (x : R) : R := (x * PI / 180)%R.

(** The Earth-Sun distance formula inside [jd_to_esd]. *)
Definition esd_formula (jd : R) : R :=
  let D := (jd - 2451545.0)%R in
  let g := (357.529 + 0.98560028 * D)%R in
  let gr := radians g in
  (1.00014 - 0.01671 * cos gr - 0.00014 * cos (2 * gr))%R.

(** [jd_to_esd(jd)] with its validity check (ValueError). *)
Definition jd_to_esd (jd : R) : result R :=
  let dES := esd_formula jd in
  if Rle_dec 0.983 dES then
    if Rle_dec dES 1.017 then Ok dES else Err ValueError
  else Err ValueError.

(** [utc_to_esd(utc)] *)
Definition utc_to_esd (utc : string) : result R :=
  acqtim <- extract_time_elements utc ;;
  let ut := universal_time (u_hours acqtim) (u_minutes acqtim) (u_seconds acqtim) in
  let jd := julian_day (u_year acqtim) (u_month acqtim) (u_day acqtim) ut in
  jd_to_esd (Q2R jd).

(** An [AcquisitionTime] object, with its public attributes. *)
Record AcquisitionTime := {
  at_utc : string;
  at_acq_utc : acq_utc;
  at_year : Z; at_month : Z; at_day : Z;
  at_hours : Z; at_minutes : Z; at_seconds : Q;
  at_ut : Q; at_jd : Q; at_esd : R }.

(** [AcquisitionTime(utc)], i.e. its [__init__]. *)
Definition make_AcquisitionTime (utc : string) : result AcquisitionTime :=
  a <- extract_time_elements utc ;;
  let ut := universal_time (u_hours a) (u_minutes a) (u_seconds a) in
  let jd := julian_day (u_year a) (u_month a) (u_day a) ut in
  esd <- utc_to_esd utc ;;
  Ok {| at_utc := utc; at_acq_utc := a;
        at_year := u_year a; at_month := u_month a; at_day := u_day a;
        at_hours := u_hours a; at_minutes := u_minutes a;
        at_seconds := u_seconds a; at_ut := ut; at_jd := jd; at_esd := esd |}.

(** ** Python's ["%f"]: round to 6 decimals, ties to even *)

Definition round_half_even_Q (y : Q) : Z :=
  let n := Qfloor y in
  let f := (y - inject_Z n)%Q in
  if negb (Qle_bool (1 # 2) f) then n
  else if negb (Qle_bool f (1 # 2)) then (n + 1)%Z
  else if Z.even n then n else (n + 1)%Z.

Definition fmt_f_Q (x : Q) : Q :=
  Qmake (round_half_even_Q (x * inject_Z 1000000)) 1000000.

(** Floor on [R] from the archimedean [up] ([x < up x <= x + 1]). *)
Definition floor_R (x : R) : Z := (up x - 1)%Z.

Definition round_half_even_R (y : R) : Z :=
  let n := floor_R y in
  let f := (y - IZR n)%R in
  if Rlt_dec f (1 / 2) then n
  else if Rlt_dec (1 / 2) f then (n + 1)%Z
  else if Z.even n then n else (n + 1)%Z.

Definition fmt_f_R (x : R) : R :=
  (IZR (round_half_even_R (x * 1000000)) / 1000000)%R.

(** ** The calibration table [CF_BW_ESUN]
    (band, (effective bandwidth, Esun, absolute calibration factor)) *)

Definition CF_BW_ESUN : list (string * (Q * Q * Q)) :=
  [("Pan",     (0.28460000, 1580.8140, 0.056783450));
   ("Coastal", (0.04730000, 1758.2229, 0.009295654));
   ("Blue",    (0.05430000, 1974.2416, 0.012608250));
   ("Green",   (0.06300000, 1856.4104, 0.009713071));
   ("Yellow",  (0.03740000, 1738.4791, 0.005829815));
   ("Red",     (0.05740000, 1559.4555, 0.011036230));
   ("RedEdge", (0.03930000, 1342.0695, 0.005188136));
   ("NIR1",    (0.09890000, 1069.7302, 0.012243800));
   ("NIR2",    (0.09960000,  861.2866, 0.009042234))]%Q.

Fixpoint assoc {A} (k : string) (l : list (string * A)) : option A :=
  match l with
  | [] => None
  | (k', v) :: r => if String.eqb k k' then Some v else assoc k r
  end.

(** [CF_BW_ESUN[band]] *)
Definition lookup (band : string) : result (Q * Q * Q) :=
  match assoc band CF_BW_ESUN with
  | Some e => Ok e
  | None => Err KeyError
  end.

(** ** r.mapcalc: the expression language the script writes

    Tokens, the precedence of r.mapcalc's grammar ([^] right-associative and
    tightest, then unary minus, then [* /], then [+ -], all binary operators
    left-associative), and evaluation at one cell over CELL (integer) and
    DCELL (double) values, NULL as [None]. *)

Module Mapcalc.

Inductive token :=
| TNum (x : R)          (* a double constant, as written by "%f" *)
| TInt (z : Z)          (* an integer constant *)
| TName (s : string)    (* a map name or a function name *)
| TPlus | TMinus | TStar | TSlash | TCaret | TLParen | TRParen.

Inductive value := VInt (z : Z) | VDbl (x : R).

Inductive expr :=
| EConst (v : value)
| EMap (name : string)
| EAdd (a b : expr) | ESub (a b : expr)
| EMul (a b : expr) | EDiv (a b : expr)
| ENeg (a : expr)
| EPow (a b : expr)
| ECall (f : string) (a : expr).

Fixpoint p_expr (n : nat) (ts : list token) : option (expr * list token) :=
  match n with O => None | S n' =>
    match p_term n' ts with
    | Some (e, r) => p_expr_rest n' e r
    | None => None
    end end
with p_expr_rest (n : nat) (acc : expr) (ts : list token) :=
  match n with O => None | S n' =>
    match ts with
    | TPlus :: r =>
        match p_term n' r with
        | Some (e, r') => p_expr_rest n' (EAdd acc e) r' | None => None end
    | TMinus :: r =>
        match p_term n' r with
        | Some (e, r') => p_expr_rest n' (ESub acc e) r' | None => None end
    | _ => Some (acc, ts)
    end end
with p_term (n : nat) (ts : list token) :=
  match n with O => None | S n' =>
    match p_unary n' ts with
    | Some (e, r) => p_term_rest n' e r
    | None => None
    end end
with p_term_rest (n : nat) (acc : expr) (ts : list token) :=
  match n with O => None | S n' =>
    match ts with
    | TStar :: r =>
        match p_unary n' r with
        | Some (e, r') => p_term_rest n' (EMul acc e) r' | None => None end
    | TSlash :: r =>
        match p_unary n' r with
        | Some (e, r') => p_term_rest n' (EDiv acc e) r' | None => None end
    | _ => Some (acc, ts)
    end end
with p_unary (n : nat) (ts : list token) :=
  match n with O => None | S n' =>
    match ts with
    | TMinus :: r =>
        match p_unary n' r with Some (e, r') => Some (ENeg e, r') | None => None end
    | _ => p_power n' ts
    end end
with p_power (n : nat) (ts : list token) :=
  match n with O => None | S n' =>
    match p_atom n' ts with
    | Some (e, TCaret :: r) =>
        match p_power n' r with
        | Some (e', r') => Some (EPow e e', r') | None => None end
    | res => res
    end end
with p_atom (n : nat) (ts : list token) :=
  match n with O => None | S n' =>
    match ts with
    | TNum x :: r => Some (EConst (VDbl x), r)
    | TInt z :: r => Some (EConst (VInt z), r)
    | TName f :: TLParen :: r =>
        match p_expr n' r with
        | Some (e, TRParen :: r') => Some (ECall f e, r')
        | _ => None
        end
    | TName m :: r => Some (EMap m, r)
    | TLParen :: r =>
        match p_expr n' r with
        | Some (e, TRParen :: r') => Some (e, r')
        | _ => None
        end
    | _ => None
    end end.

(** The right-hand side of an r.mapcalc assignment; a syntax error is
    [None]. *)
Definition parse (ts : list token) : option expr :=
  match p_expr (10 * S (length ts)) ts with
  | Some (e, []) => Some e
  | _ => None
  end.

Definition to_R (v : value) : R :=
  match v with VInt z => IZR z | VDbl x => x end.

(** Arithmetic: integer when both operands are CELL, double otherwise;
    division by zero gives NULL.  Integer overflow is not modelled. *)
Definition arith (zi : Z -> Z -> Z) (ri : R -> R -> R) (a b : value) : value :=
  match a, b with
  | VInt x, VInt y => VInt (zi x y)
  | _, _ => VDbl (ri (to_R a) (to_R b))
  end.

Definition vdiv (a b : value) : option value :=
  match a, b with
  | VInt x, VInt y => if Z.eqb y 0 then None else Some (VInt (Z.quot x y))
  | _, _ => if Req_EM_T (to_R b) 0 then None
            else Some (VDbl (to_R a / to_R b))
  end.

(** [^]: integer power for CELL operands, [powerRZ] for a double base and
    an integer exponent; a double exponent is evaluated with [Rpower] on a
    positive base only (the script never writes one). *)
Definition vpow (a b : value) : option value :=
  match a, b with
  | VInt x, VInt y => if (y <? 0)%Z then None else Some (VInt (x ^ y))
  | VDbl x, VInt y =>
      if (y <? 0)%Z then (if Req_EM_T x 0 then None else Some (VDbl (powerRZ x y)))
      else Some (VDbl (powerRZ x y))
  | _, VDbl y =>
      if Rlt_dec 0 (to_R a) then Some (VDbl (Rpower (to_R a) y)) else None
  end.

(** The functions the scripts call: [cos] takes degrees, [double] casts. *)
Definition call (f : string) (v : value) : option value :=
  if String.eqb f "cos" then Some (VDbl (cos (to_R v * PI / 180)))
  else if String.eqb f "double" then Some (VDbl (to_R v))
  else None.

Fixpoint eval (env : string -> option value) (e : expr) : option value :=
  match e with
  | EConst v => Some v
  | EMap m => env m
  | EAdd a b =>
      match eval env a, eval env b with
      | Some x, Some y => Some (arith Z.add Rplus x y) | _, _ => None end
  | ESub a b =>
      match eval env a, eval env b with
      | Some x, Some y => Some (arith Z.sub Rminus x y) | _, _ => None end
  | EMul a b =>
      match eval env a, eval env b with
      | Some x, Some y => Some (arith Z.mul Rmult x y) | _, _ => None end
  | EDiv a b =>
      match eval env a, eval env b with
      | Some x, Some y => vdiv x y | _, _ => None end
  | ENeg a =>
      match eval env a with
      | Some (VInt z) => Some (VInt (- z)) | Some (VDbl x) => Some (VDbl (- x))
      | None => None end
  | EPow a b =>
      match eval env a, eval env b with
      | Some x, Some y => vpow x y | _, _ => None end
  | ECall f a =>
      match eval env a with Some x => call f x | None => None end
  end.

End Mapcalc.
Import Mapcalc.

(** ** i.worldview.toar.py, main() *)

(** The right-hand sides the script writes:
    ["%f * %s / %f" % (acf, band, bw)] and
    ["%f * %s * %f^2 / %f * cos(%f)" % (math.pi, tmp_rad, esd, esun, sza)],
    each number already rendered by ["%f"]. *)
Definition rad_tokens (k : R) (band : string) (bw : R) : list token :=
  [TNum k; TStar; TName band; TSlash; TNum bw].

Definition toar_tokens (pi : R) (rad : string) (esd esun sza : R) : list token :=
  [TNum pi; TStar; TName rad; TStar; TNum esd; TCaret; TInt 2; TSlash;
   TNum esun; TStar; TName "cos"; TLParen; TNum sza; TRParen].

Definition rad_expr (acf : Q) (band : string) (bw : Q) : list token :=
  rad_tokens (Q2R (fmt_f_Q acf)) band (Q2R (fmt_f_Q bw)).

Definition toar_expr (tmp_rad : string) (esd : R) (esun sza : Q) : list token :=
  toar_tokens (fmt_f_R PI) tmp_rad (fmt_f_R esd) (Q2R (fmt_f_Q esun))
    (Q2R (fmt_f_Q sza)).

(** Value of the radiance map at a cell whose DN is [dn]. *)
Definition rad_pixel (acf : Q) (band : string) (bw : Q) (dn : value) : option value :=
  match parse (rad_expr acf band bw) with
  | Some e => eval (fun m => if String.eqb m band then Some dn else None) e
  | None => None
  end.

(** Value of the reflectance map at a cell whose radiance is [rad]. *)
Definition toar_pixel (esd : R) (esun sza : Q) (rad : R) : option value :=
  let tmp_rad := "tmp.Radiance" in
  match parse (toar_expr tmp_rad esd esun sza) with
  | Some e => eval (fun m => if String.eqb m tmp_rad then Some (VDbl rad) else None) e
  | None => None
  end.

(** Earth-Sun distance: the [if doy: ... elif (not doy) and utc: ... else:
    grass.fatal(...)] block. *)
Definition select_esd (doy utc : string) : result R :=
  if truthy doy then
    n <- py_int doy ;; jd_to_esd (IZR n)
  else if truthy utc then
    a <- make_AcquisitionTime utc ;; Ok (at_esd a)
  else Err GrassFatal.

(** *** The host: rasters by name *)

Record raster := {
  r_title : string; r_units : string; r_description : string;
  r_expr : option expr  (* the r.mapcalc expression that computed it *) }.

Definition store := string -> option raster.

Definition upd (m : store) (k : string) (v : option raster) : store :=
  fun n => if String.eqb n k then v else m n.

(** [grass.mapcalc("name = rhs", overwrite=True)]; a syntax error makes
    r.mapcalc fail and the script abort. *)
Definition mapcalc (name : string) (ts : list token) (m : store) : result store :=
  match parse ts with
  | Some e => Ok (upd m name (Some {| r_title := ""; r_units := "";
                                      r_description := ""; r_expr := Some e |}))
  | None => Err GrassFatal
  end.

(** [run("r.support", map=..., title=..., units=..., description=...)];
    [run] ignores the module's exit status. *)
Definition r_support (name title units descr : string) (m : store) : store :=
  match m name with
  | Some r => upd m name (Some {| r_title := title; r_units := units;
                                  r_description := descr; r_expr := r_expr r |})
  | None => m
  end.

(** [run("g.rename", rast=(a, b))], run without [--overwrite] and with
    [GRASS_OVERWRITE] unset: an existing [b] is not replaced; the failure
    is ignored. *)
Definition g_rename (a b : string) (m : store) : store :=
  match m a, m b with
  | Some r, None => upd (upd m a None) b (Some r)
  | _, _ => m
  end.

(** [cleanup()]: [g.remove -f type=rast pattern='tmp.<pid>*']. *)
Definition cleanup (pid : string) (m : store) : store :=
  fun n => if String.prefix ("tmp." ++ pid) n then None else m n.

(** *** The script's state and options *)

Record state := { s_maps : store; s_tmp_rad : string; s_tmp_toar : string }.

Record options := {
  o_band : string; o_outputsuffix : string; o_utc : string; o_doy : string;
  o_sea : string; o_flag_r : bool; o_pid : string }.

(** [str.split(',')] *)
Fixpoint split_on (c : ascii) (s : string) : list string :=
  match s with
  | EmptyString => [""]
  | String c' r =>
      if Ascii.eqb c c' then "" :: split_on c r
      else match split_on c r with
           | w :: ws => String c' w :: ws
           | [] => [String c' ""]
           end
  end.

(** [band.split('@')[0]] *)
Definition strip_mapset (band : string) : string :=
  match split_on "@"%char band with w :: _ => w | [] => band end.

(** [tmp = "tmp." + grass.basename(grass.tempfile())]; g.tempfile names its
    files [<pid>.<n>]. *)
Definition tmp_of (pid : string) : string := "tmp." ++ pid ++ ".1".

Definition units_rad : string := "W / sq.m. / μm / ster".
Definition units_toar : string := "Unitless planetary reflectance".

(** The loop body [for band in spectral_bands: ...]. *)
Definition process_band (o : options) (sfx : string) (esd : R) (sza : Q)
    (s : state) (band0 : string) : result state :=
  let tmp := tmp_of (o_pid o) in
  let band := match String.index 0 "@" band0 with
              | Some _ => strip_mapset band0
              | None => band0
              end in
  cal <- lookup band ;;
  let '(bw, esun, acf) := cal in
  let tmp_rad := tmp ++ ".Radiance" in
  m1 <- mapcalc tmp_rad (rad_expr acf band bw) (s_maps s) ;;
  let description_rad :=
    "Top-of-Atmosphere " ++ band ++ " band spectral Radiance [W/m^2/sr/μm]" in
  r2 <- (if negb (o_flag_r o) then
           let tmp_toar := tmp ++ ".Reflectance" in
           m2 <- mapcalc tmp_toar (toar_expr tmp_rad esd esun sza) m1 ;;
           Ok (m2, tmp_toar)
         else Ok (m1, s_tmp_toar s)) ;;
  let '(m2, tmp_toar) := r2 in
  let title_toar := band ++ " band (Top of Atmosphere Reflectance)" in
  let description_toar := "Top of Atmosphere " ++ band ++ " band spectral Reflectance" in
  let out_name := strip_mapset band ++ "." ++ sfx in
  let m3 :=
    if truthy tmp_toar then
      g_rename tmp_toar out_name
        (r_support tmp_toar title_toar units_toar description_toar m2)
    else if truthy tmp_rad then
      g_rename tmp_rad out_name (r_support tmp_rad "" units_rad description_rad m2)
    else m2 in
  Ok {| s_maps := m3; s_tmp_rad := tmp_rad; s_tmp_toar := tmp_toar |}.

Fixpoint process_bands (o : options) (sfx : string) (esd : R) (sza : Q)
    (s : state) (bands : list string) : result state :=
  match bands with
  | [] => Ok s
  | b :: bs => s' <- process_band o sfx esd sza s b ;; process_bands o sfx esd sza s' bs
  end.

(** [main()] followed by the [atexit] cleanup: the rasters left in the
    database, starting from the rasters [inputs].  The messages,
    [g.region] (whose status [run] ignores) and the [Info(img).read()]
    calls only read or report; the model does not fail where they would
    (an input raster missing from the database), nor where r.mapcalc would
    on such a raster, so its successful runs include every successful run
    of the script, with the same rasters left behind. *)
Definition main (o : options) (inputs : store) : result store :=
  let spectral_bands := split_on ","%char (o_band o) in
  let sfx := if o_flag_r o && String.eqb (o_outputsuffix o) "toar" then "rad"
             else o_outputsuffix o in
  esd <- select_esd (o_doy o) (o_utc o) ;;
  sea <- py_float (o_sea o) ;;
  let sza := (90 - sea)%Q in
  s <- process_bands o sfx esd sza
         {| s_maps := inputs; s_tmp_rad := ""; s_tmp_toar := "" |} spectral_bands ;;
  Ok (cleanup (o_pid o) (s_maps s)).

(** ** The spec's reflectance formula, for comparison with the code *)

(** [reflectance[p] = π * radiance[p] * esd² / (Esun * cos(sza_radians))],
    [sza_radians = sza_degrees * π / 180], as the spec writes it. *)
Definition spec_reflectance (rad esd esun sza_degrees : R) : R :=
  (PI * rad * esd ^ 2 / (esun * cos (sza_degrees * PI / 180)))%R.

(** ** i.wv.toar.py: the shell script the module was converted from

    Its metadata are hard-coded; each constant is written into the
    r.mapcalc expressions as the script spells it (no ["%f"]). *)

Module Shell.

(** [PI=3.14159265358], [DOY=100; ESD=1.00184],
    [SEA=53.8; SZA=$(echo "90 - ${SEA}" | bc)]. *)
Definition PI_sh : Q := 3.14159265358.
Definition ESD : Q := 1.00184.
Definition SEA : Q := 53.8.
Definition SZA : Q := 90 - SEA.

(** [K_<band>], [<band>_Width], [<band>_Esun]. *)
Definition constants : list (string * (Q * Q * Q)) :=
  [("Pan",     (0.05678345,  0.2846000,  1580.8140));
   ("Coastal", (0.009295654, 0.04730000, 1758.2229));
   ("Blue",    (0.01260825,  0.05430000, 1974.2416));
   ("Green",   (0.009713071, 0.06300000, 1856.4104));
   ("Yellow",  (0.005829815, 0.03740000, 1738.4791));
   ("Red",     (0.01103623,  0.05740000, 1559.4555));
   ("RedEdge", (0.005188136, 0.03930000, 1342.0695));
   ("NIR1",    (0.01224380,  0.09890000, 1069.7302));
   ("NIR2",    (0.009042234, 0.09960000, 861.2866))]%Q.

Definition Spectral_Bands : list string :=
  ["Pan"; "Coastal"; "Blue"; "Green"; "Yellow"; "Red"; "RedEdge"; "NIR1"; "NIR2"].

(** ["${BAND}_Radiance = ( double(${!K_BAND}) * ${BAND}_DNs ) / ${!BAND_Width}"] *)
Definition rad_cmd (band : string) (k w : Q) : list token :=
  [TLParen; TName "double"; TLParen; TNum (Q2R k); TRParen; TStar;
   TName (band ++ "_DNs"); TRParen; TSlash; TNum (Q2R w)].

(** ["${BAND}_ToAR = ( ${PI} * ${BAND}_Radiance * ${ESD}^2 ) /
     ( ${!BAND_Esun} * cos(${SZA}) )"] *)
Definition toar_cmd (band : string) (esun : Q) : list token :=
  [TLParen; TNum (Q2R PI_sh); TStar; TName (band ++ "_Radiance"); TStar;
   TNum (Q2R ESD); TCaret; TInt 2; TRParen; TSlash;
   TLParen; TNum (Q2R esun); TStar; TName "cos"; TLParen; TNum (Q2R SZA);
   TRParen; TRParen].

(** Value of [${BAND}_Radiance] at a cell whose [${BAND}_DNs] is [dn]. *)
Definition rad_pixel (band : string) (dn : value) : option value :=
  match assoc band constants with
  | Some (k, w, _) =>
      match parse (rad_cmd band k w) with
      | Some e => eval (fun m => if String.eqb m (band ++ "_DNs") then Some dn else None) e
      | None => None
      end
  | None => None
  end.

(** Value of [${BAND}_ToAR] at a cell whose [${BAND}_Radiance] is [rad]. *)
Definition toar_pixel (band : string) (rad : R) : option value :=
  match assoc band constants with
  | Some (_, _, esun) =>
      match parse (toar_cmd band esun) with
      | Some e =>
          eval (fun m => if String.eqb m (band ++ "_Radiance") then Some (VDbl rad)
                         else None) e
      | None => None
      end
  | None => None
  end.

End Shell.

(** ** The integer part of [julian_day]

    [julian_day year month day ut] is this whole number of days, plus
    [ut / 24 - 1525.5]. *)
Definition jd_days (year month day : Z) : Z :=
  let A := (year / 100)%Z in
  let B := (2 - A + A / 4)%Z in
  (py_trunc (365.25 * inject_Z (year + 4716))
   + py_trunc (30.6001 * inject_Z (month + 1)) + day + B)%Z.

(** ** Helper lemmas *)

Lemma esd_formula_bounds (jd : R) :
  (0.983 <= esd_formula jd <= 1.017)%R.
Proof.
  unfold esd_formula.
  set (x := radians _).
  rewrite cos_2a_cos.
  pose proof (COS_bound x) as [Hl Hu].
  assert (Hsq : (0 <= cos x * cos x <= 1)%R) by nra.
  lra.
Qed.

Lemma jd_to_esd_ok (jd : R) : jd_to_esd jd = Ok (esd_formula jd).
Proof.
  pose proof (esd_formula_bounds jd) as [Hl Hu].
  unfold jd_to_esd.
  destruct (Rle_dec 0.983 (esd_formula jd)); [| contradiction].
  destruct (Rle_dec (esd_formula jd) 1.017); [reflexivity | contradiction].
Qed.

Lemma make_AcquisitionTime_ok (utc : string) (a : acq_utc) :
  extract_time_elements utc = Ok a ->
  make_AcquisitionTime utc =
    let ut := universal_time (u_hours a) (u_minutes a) (u_seconds a) in
    let jd := julian_day (u_year a) (u_month a) (u_day a) ut in
    Ok {| at_utc := utc; at_acq_utc := a;
          at_year := u_year a; at_month := u_month a; at_day := u_day a;
          at_hours := u_hours a; at_minutes := u_minutes a;
          at_seconds := u_seconds a; at_ut := ut; at_jd := jd;
          at_esd := esd_formula (Q2R jd) |}.
Proof.
  intros E. unfold make_AcquisitionTime, utc_to_esd.
  rewrite E. cbn [bind]. rewrite jd_to_esd_ok. reflexivity.
Qed.

Lemma assoc_None_iff {A} (k : string) (l : list (string * A)) :
  assoc k l = None <-> ~ In k (map fst l).
Proof.
  induction l as [| [k' v] r IH]; simpl.
  - tauto.
  - destruct (String.eqb_spec k k') as [-> | Hne].
    + split; [discriminate | intros H; exfalso; apply H; left; reflexivity].
    + rewrite IH. split; intros H H'; apply H;
        [destruct H' as [H' | H']; [congruence | exact H'] | right; exact H'].
Qed.

Lemma parse_rad_tokens (k bw : R) (band : string) :
  parse (rad_tokens k band bw) =
  Some (EDiv (EMul (EConst (VDbl k)) (EMap band)) (EConst (VDbl bw))).
Proof. reflexivity. Qed.

Lemma parse_toar_tokens (pi esd esun sza : R) (rad : string) :
  parse (toar_tokens pi rad esd esun sza) =
  Some (EMul
          (EDiv
             (EMul (EMul (EConst (VDbl pi)) (EMap rad))
                (EPow (EConst (VDbl esd)) (EConst (VInt 2))))
             (EConst (VDbl esun)))
          (ECall "cos" (EConst (VDbl sza)))).
Proof. reflexivity. Qed.

Definition band_names : list string :=
  ["Pan"; "Coastal"; "Blue"; "Green"; "Yellow"; "Red"; "RedEdge"; "NIR1"; "NIR2"].

(** Every bandwidth and Esun of the table stays nonzero after ["%f"]. *)
Lemma table_fmt_pos (band : string) (bw esun acf : Q) :
  In (band, (bw, esun, acf)) CF_BW_ESUN ->
  (0 < fmt_f_Q bw)%Q /\ (0 < fmt_f_Q esun)%Q.
Proof.
  intros H; simpl in H.
  repeat (destruct H as [H | H];
          [injection H as <- <- <- <-; split; vm_compute; reflexivity |]).
  destruct H.
Qed.

Lemma Q2R_pos_neq0 (q : Q) : (0 < q)%Q -> Q2R q <> 0%R.
Proof.
  intros H. apply Qlt_Rlt in H. rewrite RMicromega.Q2R_0 in H. lra.
Qed.

Lemma assoc_In {A} (k : string) (v : A) (l : list (string * A)) :
  assoc k l = Some v -> In (k, v) l.
Proof.
  induction l as [| [k' v'] r IH]; simpl; [discriminate |].
  destruct (String.eqb_spec k k') as [-> | _].
  - intros H; injection H as ->; left; reflexivity.
  - intros H; right; exact (IH H).
Qed.

(** The radiance cell value: [K6 * dn / bw6], where [K6] and [bw6] are the
    table's factor and bandwidth as printed by ["%f"]. *)
Lemma rad_pixel_value (band : string) (bw esun acf : Q) (v : value) :
  lookup band = Ok (bw, esun, acf) ->
  rad_pixel acf band bw v =
    Some (VDbl (Q2R (fmt_f_Q acf) * to_R v / Q2R (fmt_f_Q bw))).
Proof.
  unfold lookup. destruct (assoc band CF_BW_ESUN) as [e |] eqn:E; [| discriminate].
  intros H; injection H as ->.
  apply assoc_In in E. apply table_fmt_pos in E as [Hbw _].
  apply Q2R_pos_neq0 in Hbw.
  unfold rad_pixel, rad_expr. rewrite parse_rad_tokens. cbn [eval].
  rewrite String.eqb_refl.
  unfold vdiv, arith.
  destruct v as [z | x]; cbn [to_R];
    (destruct (Req_EM_T (Q2R (fmt_f_Q bw)) 0) as [H0 | _]; [contradiction | reflexivity]).
Qed.

Definition doc_utc : string := "2001_10_18T18:51:26.000000Z;".
Definition nov_utc : string := "2014_11_12T16:47:08.000000Z;".
Definition jan_utc : string := "2014_01_12T16:47:08.000000Z;".

Lemma extract_doc_utc :
  extract_time_elements doc_utc =
  Ok {| u_year := 2001; u_month := 10; u_day := 18; u_hours := 18;
        u_minutes := 51; u_seconds := 26000000 # 1000000 |}.
Proof. vm_compute. reflexivity. Qed.

Lemma extract_nov_utc :
  extract_time_elements nov_utc =
  Ok {| u_year := 2014; u_month := 11; u_day := 12; u_hours := 16;
        u_minutes := 47; u_seconds := 8000000 # 1000000 |}.
Proof. vm_compute. reflexivity. Qed.

Lemma extract_jan_utc :
  extract_time_elements jan_utc =
  Ok {| u_year := 2013; u_month := 13; u_day := 12; u_hours := 16;
        u_minutes := 47; u_seconds := 8000000 # 1000000 |}.
Proof. vm_compute. reflexivity. Qed.

Lemma floor_R_spec (x : R) : (IZR (floor_R x) <= x < IZR (floor_R x) + 1)%R.
Proof. unfold floor_R. rewrite minus_IZR. destruct (archimed x). lra. Qed.

Lemma round_half_even_R_spec (y : R) :
  (-(1/2) <= IZR (round_half_even_R y) - y <= 1/2)%R.
Proof.
  unfold round_half_even_R.
  pose proof (floor_R_spec y) as [H1 H2].
  destruct (Rlt_dec _ _); [lra |].
  destruct (Rlt_dec _ _); [rewrite plus_IZR; lra |].
  destruct (Z.even _); rewrite ?plus_IZR; lra.
Qed.

(** ["%f"] moves a value by at most half a unit of the 6th decimal. *)
Lemma fmt_f_R_bound (x : R) :
  (x - / 2000000 <= fmt_f_R x <= x + / 2000000)%R.
Proof.
  unfold fmt_f_R.
  pose proof (round_half_even_R_spec (x * 1000000)) as [H1 H2].
  set (r := IZR (round_half_even_R (x * 1000000))) in *.
  split; apply (Rmult_le_reg_r 1000000); try lra;
    replace (r / 1000000 * 1000000)%R with r by field; lra.
Qed.

Lemma fmt_f_R_IZR (z : Z) : fmt_f_R (IZR z) = IZR z.
Proof.
  unfold fmt_f_R, round_half_even_R.
  assert (Hf : floor_R (IZR z * 1000000) = (z * 1000000)%Z).
  { unfold floor_R.
    rewrite <- (up_tech (IZR z * 1000000) (z * 1000000));
      [lia | rewrite mult_IZR; lra | rewrite plus_IZR, mult_IZR; lra]. }
  rewrite Hf, mult_IZR.
  replace (IZR z * 1000000 - IZR z * 1000000)%R with 0%R by ring.
  destruct (Rlt_dec 0 (1 / 2)); [| lra].
  rewrite mult_IZR. field.
Qed.

(** The reflectance cell as r.mapcalc evaluates the script's expression:
    [((π6 * rad) * esd6^2) / Esun6 * cos(sza6)], [cos] in degrees. *)
Lemma toar_pixel_value (esd : R) (esun sza : Q) (rad : R) :
  (0 < fmt_f_Q esun)%Q ->
  toar_pixel esd esun sza rad =
    Some (VDbl (fmt_f_R PI * rad * powerRZ (fmt_f_R esd) 2 / Q2R (fmt_f_Q esun)
                * cos (Q2R (fmt_f_Q sza) * PI / 180))).
Proof.
  intros He. apply Q2R_pos_neq0 in He.
  unfold toar_pixel, toar_expr. rewrite parse_toar_tokens. cbn.
  destruct (Req_EM_T (Q2R (fmt_f_Q esun)) 0) as [H0 | _]; [contradiction |].
  reflexivity.
Qed.

(** *** Errors raised while resolving the acquisition time *)

Ltac result_cases :=
  repeat match goal with
  | |- context [match ?x with _ => _ end] => destruct x
  end.

Lemma py_int_err (s : string) (e : py_error) : py_int s = Err e -> e = ValueError.
Proof. unfold py_int. result_cases; congruence. Qed.

Lemma py_float_err (s : string) (e : py_error) : py_float s = Err e -> e = ValueError.
Proof. unfold py_float. result_cases; congruence. Qed.

Lemma extract_err (utc : string) (e : py_error) :
  extract_time_elements utc = Err e -> e = ValueError.
Proof.
  unfold extract_time_elements.
  destruct (py_int (slice 0 4 utc)) eqn:E1; cbn [bind]; [| intros H; injection H as <-; eauto using py_int_err].
  destruct (py_int (slice 5 7 utc)) eqn:E2; cbn [bind]; [| intros H; injection H as <-; eauto using py_int_err].
  destruct (_ || _); cbn [bind].
  all: destruct (py_int (slice 8 10 utc)) eqn:E3; cbn [bind]; [| intros H; injection H as <-; eauto using py_int_err].
  all: destruct (py_int (slice 11 13 utc)) eqn:E4; cbn [bind]; [| intros H; injection H as <-; eauto using py_int_err].
  all: destruct (py_int (slice 14 16 utc)) eqn:E5; cbn [bind]; [| intros H; injection H as <-; eauto using py_int_err].
  all: destruct (py_float (slice 17 26 utc)) eqn:E6; cbn [bind]; [discriminate | intros H; injection H as <-; eauto using py_float_err].
Qed.

Lemma make_AcquisitionTime_err (utc : string) (e : py_error) :
  make_AcquisitionTime utc = Err e -> e = ValueError.
Proof.
  destruct (extract_time_elements utc) as [a | e'] eqn:E.
  - rewrite (make_AcquisitionTime_ok _ _ E). discriminate.
  - unfold make_AcquisitionTime. rewrite E. cbn [bind].
    intros H; injection H as <-. eauto using extract_err.
Qed.

(** *** Strings of the host *)

Lemma string_app_assoc (a b c : string) : (a ++ b) ++ c = a ++ (b ++ c).
Proof. induction a; simpl; congruence. Qed.

Lemma prefix_app (a b : string) : String.prefix a (a ++ b) = true.
Proof.
  induction a as [| c a IH]; simpl; [destruct b; reflexivity |].
  destruct (ascii_dec c c); [exact IH | contradiction].
Qed.

Lemma string_app_length (a b : string) : String.length (a ++ b) = (String.length a + String.length b)%nat.
Proof. induction a; simpl; congruence. Qed.

Lemma string_app_inv_tail (a b c : string) : a ++ c = b ++ c -> a = b.
Proof.
  revert b. induction a as [| x a IH]; intros [| y b] H; simpl in H.
  - reflexivity.
  - exfalso. apply (f_equal String.length) in H. simpl in H.
    rewrite string_app_length in H. lia.
  - exfalso. apply (f_equal String.length) in H. simpl in H.
    rewrite string_app_length in H. lia.
  - injection H as -> H. f_equal. exact (IH b H).
Qed.

(** The temporary rasters all start with the cleanup pattern. *)
Lemma tmp_name_prefix (pid x : string) :
  String.prefix ("tmp." ++ pid) (tmp_of pid ++ x) = true.
Proof.
  unfold tmp_of. rewrite string_app_assoc, string_app_assoc. simpl.
  apply prefix_app.
Qed.

Lemma not_tmp_neq (pid n x : string) :
  String.prefix ("tmp." ++ pid) n = false -> String.eqb n (tmp_of pid ++ x) = false.
Proof.
  intros H. destruct (String.eqb_spec n (tmp_of pid ++ x)) as [-> | _]; [| reflexivity].
  rewrite tmp_name_prefix in H. discriminate.
Qed.

Lemma known_band_facts (b : string) :
  In b band_names ->
  String.index 0 "@" b = None /\ strip_mapset b = b /\
  (forall pid sfx, String.prefix ("tmp." ++ pid) (b ++ "." ++ sfx) = false) /\
  exists bw esun acf, lookup b = Ok (bw, esun, acf).
Proof.
  intros H; simpl in H.
  repeat (destruct H as [<- | H];
          [split; [reflexivity |]; split; [reflexivity |];
           split; [intros; reflexivity | do 3 eexists; reflexivity] |]).
  destruct H.
Qed.

(** *** The band loop *)

Definition sfx_of (o : options) : string :=
  if o_flag_r o && String.eqb (o_outputsuffix o) "toar" then "rad"
  else o_outputsuffix o.

Definition out_units (o : options) : string :=
  if o_flag_r o then units_rad else units_toar.

(** Units of the rasters a run should leave behind: the inputs, plus one
    raster [<band>.<suffix>] per processed band. *)
Definition expected_units (inputs : store) (sfx u : string) (done : list string)
    (n : string) : option string :=
  if existsb (fun b => String.eqb n (b ++ "." ++ sfx)) done then Some u
  else option_map r_units (inputs n).

Definition loop_inv (o : options) (inputs : store) (s : state) (done : list string) : Prop :=
  (o_flag_r o = true -> s_tmp_toar s = "") /\
  forall n, String.prefix ("tmp." ++ o_pid o) n = false ->
    option_map r_units (s_maps s n) =
    expected_units inputs (sfx_of o) (out_units o) done n.

Lemma rename_fresh (m : store) (t out n title u d : string) (r : raster) :
  m out = None -> String.eqb out t = false ->
  option_map r_units (g_rename t out (r_support t title u d (upd m t (Some r))) n) =
  if String.eqb n out then Some u
  else if String.eqb n t then None else option_map r_units (m n).
Proof.
  intros Hout Hne. unfold g_rename, r_support, upd.
  rewrite String.eqb_refl, String.eqb_refl, Hne, Hout.
  destruct (String.eqb n out); [reflexivity |].
  destruct (String.eqb n t); reflexivity.
Qed.

Lemma truthy_tmp (pid x : string) : truthy (tmp_of pid ++ x) = true.
Proof. reflexivity. Qed.

Lemma process_band_inv (o : options) (inputs : store) (esd : R) (sza : Q)
    (s : state) (b : string) (done : list string) :
  In b band_names -> ~ In b done ->
  inputs (b ++ "." ++ sfx_of o) = None ->
  loop_inv o inputs s done ->
  exists s', process_band o (sfx_of o) esd sza s b = Ok s' /\
             loop_inv o inputs s' (done ++ [b]).
Proof.
  intros Hb Hnd Hfr [Htoar Hm].
  destruct (known_band_facts b Hb) as (Hidx & Hstrip & Hpre & bw & esun & acf & Hlk).
  set (sfx := sfx_of o) in *.
  set (out := b ++ "." ++ sfx) in *.
  assert (Hex : forall n, String.eqb n out = true ->
            existsb (fun b' => String.eqb n (b' ++ "." ++ sfx)) done = false).
  { intros n Hn. apply String.eqb_eq in Hn. subst n.
    apply not_true_iff_false. intros Hx.
    apply existsb_exists in Hx as [b' [Hin Heq]].
    apply String.eqb_eq, string_app_inv_tail in Heq. subst b'. contradiction. }
  assert (Hout : s_maps s out = None).
  { specialize (Hm out (Hpre _ _)). unfold expected_units in Hm.
    rewrite (Hex out (String.eqb_refl _)), Hfr in Hm.
    destruct (s_maps s out); [discriminate | reflexivity]. }
  set (tmp_rad := tmp_of (o_pid o) ++ ".Radiance").
  set (tmp_toar := tmp_of (o_pid o) ++ ".Reflectance").
  assert (Hrad_out : String.eqb out tmp_rad = false) by (apply not_tmp_neq, Hpre).
  assert (Htoar_out : String.eqb out tmp_toar = false) by (apply not_tmp_neq, Hpre).
  unfold process_band. rewrite Hidx, Hlk. cbn [bind].
  fold tmp_rad tmp_toar.
  unfold mapcalc at 1, rad_expr. rewrite parse_rad_tokens. cbn [bind].
  assert (Hstep : forall n, String.prefix ("tmp." ++ o_pid o) n = false ->
    (if String.eqb n out then Some (out_units o) else option_map r_units (s_maps s n)) =
    expected_units inputs sfx (out_units o) (done ++ [b]) n).
  { intros n Hn. unfold expected_units. rewrite existsb_app. cbn [existsb].
    rewrite orb_false_r. fold out.
    destruct (String.eqb n out) eqn:Eo.
    - rewrite orb_true_r. reflexivity.
    - rewrite orb_false_r. apply Hm, Hn. }
  destruct (o_flag_r o) eqn:Hr; cbn [negb].
  - (* radiance only: the radiance raster is the output *)
    rewrite (Htoar eq_refl). cbn [bind truthy].
    replace (truthy tmp_rad) with true by reflexivity.
    rewrite Hstrip. fold out.
    eexists; split; [reflexivity |]. split.
    + intros _. reflexivity.
    + intros n Hn. cbn [s_maps].
      rewrite rename_fresh by assumption.
      assert (Hn1 : String.eqb n tmp_rad = false) by (apply not_tmp_neq, Hn).
      rewrite Hn1.
      refine (eq_trans _ (Hstep n Hn)). unfold out_units. rewrite Hr. reflexivity.
  - (* reflectance: the reflectance raster is the output *)
    unfold mapcalc, toar_expr. rewrite parse_toar_tokens. cbn [bind].
    replace (truthy tmp_toar) with true by reflexivity.
    rewrite Hstrip. fold out.
    eexists; split; [reflexivity |]. split.
    + intros H. rewrite Hr in H. discriminate.
    + intros n Hn. cbn [s_maps].
      rewrite rename_fresh.
      * assert (Hn1 : String.eqb n tmp_rad = false) by (apply not_tmp_neq, Hn).
        assert (Hn2 : String.eqb n tmp_toar = false) by (apply not_tmp_neq, Hn).
        rewrite Hn2. unfold upd at 1. rewrite Hn1.
        refine (eq_trans _ (Hstep n Hn)). unfold out_units. rewrite Hr. reflexivity.
      * unfold upd. rewrite Hrad_out. exact Hout.
      * exact Htoar_out.
Qed.

Lemma process_bands_inv (o : options) (inputs : store) (esd : R) (sza : Q)
    (bands : list string) :
  forall s done,
  loop_inv o inputs s done ->
  Forall (fun b => In b band_names) bands ->
  NoDup (done ++ bands) ->
  (forall b, In b bands -> inputs (b ++ "." ++ sfx_of o) = None) ->
  exists s', process_bands o (sfx_of o) esd sza s bands = Ok s' /\
             loop_inv o inputs s' (done ++ bands).
Proof.
  induction bands as [| b bs IH]; intros s done Hinv Hk Hnd Hfr.
  - exists s. rewrite app_nil_r. split; [reflexivity | exact Hinv].
  - inversion Hk as [| ? ? Hb Hbs]; subst.
    assert (Hnb : ~ In b done).
    { intros Hin. pose proof Hnd as Hnd'. apply NoDup_remove_2 in Hnd'.
      apply Hnd', in_or_app. left; exact Hin. }
    destruct (process_band_inv o inputs esd sza s b done Hb Hnb
                (Hfr b (or_introl eq_refl)) Hinv) as [s1 [H1 Hinv1]].
    destruct (IH s1 (done ++ [b])%list Hinv1 Hbs) as [s2 [H2 Hinv2]].
    + rewrite <- app_assoc. exact Hnd.
    + intros b' Hin. apply Hfr. right; exact Hin.
    + exists s2. cbn [process_bands]. rewrite H1. cbn [bind].
      rewrite <- app_assoc in Hinv2. split; [exact H2 | exact Hinv2].
Qed.



Lemma main_runs (o : options) (inputs : store) (esd : R) (sea : Q) :
  select_esd (o_doy o) (o_utc o) = Ok esd -> py_float (o_sea o) = Ok sea ->
  Forall (fun b => In b band_names) (split_on ","%char (o_band o)) ->
  NoDup (split_on ","%char (o_band o)) ->
  (forall b, In b (split_on ","%char (o_band o)) -> inputs (b ++ "." ++ sfx_of o) = None) ->
  exists final, main o inputs = Ok final.
Proof.
  intros He Hs Hk Hnd Hfr.
  assert (Hinv0 : loop_inv o inputs {| s_maps := inputs; s_tmp_rad := ""; s_tmp_toar := "" |} []).
  { split; [reflexivity | intros m _; reflexivity]. }
  destruct (process_bands_inv o inputs esd (90 - sea) _ _ [] Hinv0 Hk Hnd Hfr)
    as [s' [Hp' _]].
  eexists. unfold main. fold (sfx_of o). rewrite He, Hs. cbn [bind].
  rewrite Hp'. reflexivity.
Qed.

Lemma select_esd_doy_ok (doy utc : string) (n : Z) :
  py_int doy = Ok n -> select_esd doy utc = Ok (esd_formula (IZR n)).
Proof.
  intros H. destruct doy as [| c r].
  - vm_compute in H. discriminate.
  - unfold select_esd. cbn [truthy]. rewrite H. cbn [bind]. apply jd_to_esd_ok.
Qed.

(** A run on the raster [Green]: doy 100, sun elevation 30 degrees,
    reflectance mode, default suffix. *)
Definition input_raster : raster :=
  {| r_title := ""; r_units := ""; r_description := ""; r_expr := None |}.

Definition inputs_green : store :=
  fun n => if String.eqb n "Green" then Some input_raster else None.


(** The same run with both [utc] and [doy] given. *)
Definition opts_green_both : options :=
  {| o_band := "Green"; o_outputsuffix := "toar"; o_utc := nov_utc; o_doy := "100";
     o_sea := "30"; o_flag_r := false; o_pid := "4242" |}.


Lemma main_green_runs (o : options) :
  o_band o = "Green" -> o_doy o = "100" -> o_sea o = "30" ->
  exists final, main o inputs_green = Ok final.
Proof.
  intros Hb Hd Hs.
  apply (main_runs o inputs_green (esd_formula (IZR 100)) 30).
  - rewrite Hd. apply select_esd_doy_ok. reflexivity.
  - rewrite Hs. vm_compute. reflexivity.
  - rewrite Hb. constructor; [simpl; auto 10 | constructor].
  - rewrite Hb. constructor; [simpl; tauto | constructor].
  - rewrite Hb. intros b [<- | []].
    unfold inputs_green. destruct (String.eqb_spec ("Green" ++ "." ++ sfx_of o) "Green")
      as [E | _]; [| reflexivity].
    apply (f_equal String.length) in E. rewrite string_app_length in E. simpl in E. lia.
Qed.

(** *** Bands given with their mapset *)

Lemma prefix_empty (t : string) : String.prefix "" t = true.
Proof. destruct t; reflexivity. Qed.




Lemma index_at_app (b m : string) : String.index 0 "@" (b ++ String "@" m) <> None.
Proof.
  induction b as [| c r IH]; cbn [append String.index String.prefix].
  - destruct (ascii_dec "@"%char "@"%char); [rewrite prefix_empty; discriminate | contradiction].
  - destruct (ascii_dec "@"%char c); [rewrite prefix_empty; discriminate |].
    destruct (String.index 0 "@" (r ++ String "@" m)); [intros H; cbn in H; discriminate H | contradiction].
Qed.













Lemma select_esd_err (doy utc : string) (e : py_error) :
  select_esd doy utc = Err e ->
  (e = GrassFatal /\ doy = EmptyString /\ utc = EmptyString) \/ e = ValueError.
Proof.
  unfold select_esd. destruct doy as [| c r]; cbn [truthy].
  - destruct utc as [| c' r']; cbn [truthy].
    + intros H; injection H as <-. left; auto.
    + destruct (make_AcquisitionTime _) eqn:E; cbn [bind]; [discriminate |].
      intros H; injection H as <-. right. eapply make_AcquisitionTime_err, E.
  - destruct (py_int _) eqn:E; cbn [bind].
    + rewrite jd_to_esd_ok. discriminate.
    + intros H; injection H as <-. right. eapply py_int_err, E.
Qed.





(** * Claims *)

(** ** C4 *)

(** C4: for every Julian Day [jd], [jd_to_esd jd] returns
    [1.00014 - 0.01671 cos g - 0.00014 cos 2g] exactly when that value lies
    in [0.983, 1.017] and raises otherwise; and the value always lies in
    that range (for every real [jd], so for every Julian Day of any year),
    so the error branch is never taken. *)
Theorem jd_to_esd_range (jd : R) :
  let g := (357.529 + 0.98560028 * (jd - 2451545.0))%R in
  esd_formula jd =
    (1.00014 - 0.01671 * cos (g * PI / 180) - 0.00014 * cos (2 * (g * PI / 180)))%R /\
  (jd_to_esd jd = Ok (esd_formula jd) <-> (0.983 <= esd_formula jd <= 1.017)%R) /\
  (jd_to_esd jd = Err ValueError <-> ~ (0.983 <= esd_formula jd <= 1.017)%R) /\
  (0.983 <= esd_formula jd <= 1.017)%R /\
  jd_to_esd jd = Ok (esd_formula jd).
Proof.
  intros g.
  pose proof (esd_formula_bounds jd) as Hb.
  rewrite jd_to_esd_ok.
  split; [reflexivity |].
  split; [tauto |].
  split; [split; [discriminate | tauto] |].
  split; [exact Hb | reflexivity].
Qed.

(** ** C8 *)

(** C8: the table [CF_BW_ESUN] has exactly the 9 keys Pan, Coastal, Blue,
    Green, Yellow, Red, RedEdge, NIR1, NIR2; [CF_BW_ESUN[name]] succeeds for
    each of them and raises KeyError for every other name. *)
Theorem lookup_known_bands :
  map fst CF_BW_ESUN = band_names /\
  length CF_BW_ESUN = 9%nat /\
  (forall name, (exists e, lookup name = Ok e) <-> In name band_names) /\
  (forall name, lookup name = Err KeyError <-> ~ In name band_names).
Proof.
  assert (Hmap : map fst CF_BW_ESUN = band_names) by reflexivity.
  split; [exact Hmap |]. split; [reflexivity |].
  rewrite <- Hmap.
  split; intros name; unfold lookup;
    pose proof (assoc_None_iff name CF_BW_ESUN) as Hn;
    destruct (in_dec String.string_dec name (map fst CF_BW_ESUN)) as [H | H];
    destruct (assoc name CF_BW_ESUN) as [e |] eqn:E.
  - split; [intros _; exact H | intros _; exists e; reflexivity].
  - exfalso. apply (proj1 Hn eq_refl). exact H.
  - exfalso. apply Hn in H. discriminate.
  - split; [intros [e He]; discriminate | contradiction].
  - split; [discriminate | intros H'; contradiction].
  - exfalso. apply (proj1 Hn eq_refl). exact H.
  - exfalso. apply Hn in H. discriminate.
  - split; [intros _; exact H | reflexivity].
Qed.

(** ** C7 *)

(** C7: for every entry of the calibration table and every DN value,
    scaling the DN by a constant [c] scales the radiance cell by [c]: the
    cell is [K * dn / bandwidth] (with [K] and the bandwidth as written into
    the r.mapcalc expression), for CELL (integer) and DCELL DN maps alike. *)
Theorem radiance_linear_in_dn (band : string) (bw esun acf : Q)
    (Hlk : lookup band = Ok (bw, esun, acf)) :
  let K := Q2R (fmt_f_Q acf) in
  let W := Q2R (fmt_f_Q bw) in
  (forall c d : R,
     rad_pixel acf band bw (VDbl d) = Some (VDbl (K * d / W)) /\
     rad_pixel acf band bw (VDbl (c * d)) = Some (VDbl (c * (K * d / W)))) /\
  (forall c d : Z,
     rad_pixel acf band bw (VInt d) = Some (VDbl (K * IZR d / W)) /\
     rad_pixel acf band bw (VInt (c * d)) = Some (VDbl (IZR c * (K * IZR d / W)))).
Proof.
  intros K W.
  pose proof (fun v => rad_pixel_value band bw esun acf v Hlk) as Hv.
  assert (HW : W <> 0%R).
  { unfold lookup in Hlk. destruct (assoc band CF_BW_ESUN) eqn:E; [| discriminate].
    injection Hlk as ->. apply assoc_In, table_fmt_pos in E as [Hbw _].
    exact (Q2R_pos_neq0 _ Hbw). }
  split; intros c d; rewrite !Hv; cbn [to_R]; split; try reflexivity;
    rewrite ?mult_IZR; do 2 f_equal; fold K W; field; exact HW.
Qed.

Lemma radiance_linear_in_dn_witness :
  lookup "Green" = Ok (0.06300000, 1856.4104, 0.009713071)%Q /\
  rad_pixel 0.009713071 "Green" 0.06300000 (VInt (3 * 100)) =
    Some (VDbl (IZR 3 * (Q2R (fmt_f_Q 0.009713071) * IZR 100 / Q2R (fmt_f_Q 0.06300000)))).
Proof.
  split; [reflexivity |].
  exact (proj2 (proj2 (radiance_linear_in_dn "Green" _ _ _ eq_refl) 3%Z 100%Z)).
Defined.

(** ** C10 *)

(** C10: for every UTC string the constructor accepts, the
    [AcquisitionTime]'s [jd] is [julian_day] of its own year, month, day and
    [universal_time] of its hours, minutes, seconds, and its [esd] (obtained
    by re-running [utc_to_esd] on the stored string) is [jd_to_esd] of that
    [jd]. *)
Theorem acquisition_time_consistent (utc : string) (a : AcquisitionTime)
    (H : make_AcquisitionTime utc = Ok a) :
  at_ut a = universal_time (at_hours a) (at_minutes a) (at_seconds a) /\
  at_jd a = julian_day (at_year a) (at_month a) (at_day a) (at_ut a) /\
  jd_to_esd (Q2R (at_jd a)) = Ok (at_esd a) /\
  utc_to_esd (at_utc a) = Ok (at_esd a).
Proof.
  unfold make_AcquisitionTime in H.
  destruct (extract_time_elements utc) as [u | e] eqn:E; cbn [bind] in H;
    [| discriminate].
  destruct (utc_to_esd utc) as [esd | e] eqn:E2; cbn [bind] in H; [| discriminate].
  injection H as <-. cbn.
  unfold utc_to_esd in E2. rewrite E in E2. cbn [bind] in E2.
  split; [reflexivity |]. split; [reflexivity |].
  split; [exact E2 |].
  unfold utc_to_esd. rewrite E. exact E2.
Qed.

Lemma acquisition_time_consistent_witness :
  exists a, make_AcquisitionTime nov_utc = Ok a /\
    jd_to_esd (Q2R (at_jd a)) = Ok (at_esd a).
Proof.
  eexists. split.
  - exact (make_AcquisitionTime_ok _ _ extract_nov_utc).
  - exact (proj1 (proj2 (proj2 (acquisition_time_consistent nov_utc _
             (make_AcquisitionTime_ok _ _ extract_nov_utc))))).
Defined.

(** ** C5 *)

(** C5 (as the code does it): the January/February modification is made
    inside [extract_time_elements], and the [AcquisitionTime] copies its
    fields: for a string whose month is 1 or 2 the public [year] and [month]
    are [year - 1] and [month + 12]; for other months they are the parsed
    calendar values. *)
Theorem acquisition_time_fields (utc : string) (a : AcquisitionTime) (y m : Z)
    (H : make_AcquisitionTime utc = Ok a)
    (Hy : py_int (slice 0 4 utc) = Ok y) (Hm : py_int (slice 5 7 utc) = Ok m) :
  ((m = 1 \/ m = 2)%Z -> at_year a = (y - 1)%Z /\ at_month a = (m + 12)%Z) /\
  ((m <> 1 /\ m <> 2)%Z -> at_year a = y /\ at_month a = m).
Proof.
  unfold make_AcquisitionTime in H.
  destruct (extract_time_elements utc) as [u | e] eqn:E; cbn [bind] in H;
    [| discriminate].
  destruct (utc_to_esd utc) as [esd | e] eqn:E2; cbn [bind] in H; [| discriminate].
  injection H as <-. cbn.
  unfold extract_time_elements in E. rewrite Hy, Hm in E. cbn [bind] in E.
  destruct ((m =? 1)%Z || (m =? 2)%Z) eqn:Hb.
  - destruct (py_int (slice 8 10 utc)); cbn [bind] in E; [| discriminate].
    destruct (py_int (slice 11 13 utc)); cbn [bind] in E; [| discriminate].
    destruct (py_int (slice 14 16 utc)); cbn [bind] in E; [| discriminate].
    destruct (py_float (slice 17 26 utc)); cbn [bind] in E; [| discriminate].
    injection E as <-. cbn.
    apply orb_true_iff in Hb. rewrite !Z.eqb_eq in Hb.
    split; [tauto | intros [H1 H2]; lia].
  - destruct (py_int (slice 8 10 utc)); cbn [bind] in E; [| discriminate].
    destruct (py_int (slice 11 13 utc)); cbn [bind] in E; [| discriminate].
    destruct (py_int (slice 14 16 utc)); cbn [bind] in E; [| discriminate].
    destruct (py_float (slice 17 26 utc)); cbn [bind] in E; [| discriminate].
    injection E as <-. cbn.
    apply orb_false_iff in Hb. rewrite !Z.eqb_neq in Hb.
    split; [intros [H1 | H1]; lia | tauto].
Qed.

Lemma acquisition_time_fields_witness :
  exists a, make_AcquisitionTime jan_utc = Ok a /\
    at_year a = 2013%Z /\ at_month a = 13%Z.
Proof.
  eexists. split; [exact (make_AcquisitionTime_ok _ _ extract_jan_utc) |].
  apply (proj1 (acquisition_time_fields jan_utc _ 2014 1
           (make_AcquisitionTime_ok _ _ extract_jan_utc) eq_refl eq_refl)).
  left; reflexivity.
Defined.

(** C5 as stated fails: for the January string
    ["2014_01_12T16:47:08.000000Z;"] (calendar year 2014, month 1) the
    object's [month] is 13 and its [year] 2013. *)
Lemma acquisition_time_january_exposes_adjusted :
  py_int (slice 0 4 jan_utc) = Ok 2014%Z /\
  py_int (slice 5 7 jan_utc) = Ok 1%Z /\
  exists a, make_AcquisitionTime jan_utc = Ok a /\
    at_month a = 13%Z /\ at_month a <> 1%Z /\ at_year a = 2013%Z.
Proof.
  split; [reflexivity |]. split; [reflexivity |].
  eexists. split; [exact (make_AcquisitionTime_ok _ _ extract_jan_utc) |].
  cbn. split; [reflexivity |]. split; [discriminate | reflexivity].
Qed.

(** ** C2 *)

(** C2 fails on the code: for the documented example
    ["2001_10_18T18:51:26.000000Z;"], [julian_day] of the parsed fields is
    [2452199.5 + 33943/43200 = 2452200.2857...], one day before the
    documented 2452201.286: the formula subtracts 1525.5 instead of the
    standard 1524.5. *)
Theorem julian_day_reference_example :
  exists a, extract_time_elements doc_utc = Ok a /\
    let jd := julian_day (u_year a) (u_month a) (u_day a)
                (universal_time (u_hours a) (u_minutes a) (u_seconds a)) in
    (jd == (4904399 # 2) + (33943 # 43200))%Q /\
    (0.999 < Qabs (jd - 2452201.286))%Q.
Proof.
  eexists. split; [exact extract_doc_utc |].
  split; vm_compute; reflexivity.
Qed.

(** ** C9 *)

(** C9 fails on the code: for band Green and DN = 100 the radiance cell is
    [0.009713 * 100 / 0.063 = 9713/630 = 15.41746...], not
    [0.009713071 * 100 / 0.0630 = 15.41757...]: ["%f"] keeps 6 decimals of
    the calibration factor. *)
Theorem green_radiance_dn100 :
  lookup "Green" = Ok (0.06300000, 1856.4104, 0.009713071)%Q /\
  rad_pixel 0.009713071 "Green" 0.06300000 (VInt 100) = Some (VDbl (Q2R (9713 # 630))) /\
  Q2R (9713 # 630) <> (0.009713071 * 100 / 0.0630)%R.
Proof.
  split; [reflexivity |].
  rewrite (rad_pixel_value "Green" _ _ _ _ eq_refl).
  assert (HK : Q2R (fmt_f_Q 0.009713071) = Q2R (9713 # 1000000))
    by (apply Qeq_eqR; vm_compute; reflexivity).
  assert (HW : Q2R (fmt_f_Q 0.06300000) = Q2R (63 # 1000))
    by (apply Qeq_eqR; vm_compute; reflexivity).
  rewrite HK, HW. cbn [to_R].
  unfold Q2R; cbn [Qnum Qden IZR IPR IPR_2].
  split; [do 2 f_equal; field | lra].
Qed.

(** ** C1 *)

(** C1 fails on the code: the script writes
    ["%f * %s * %f^2 / %f * cos(%f)"], which r.mapcalc reads as
    [((π * rad * esd^2) / Esun) * cos(sza)]: [cos(sza)] multiplies instead of
    dividing.  For band Green (Esun 1856.4104), a sun elevation of 30 degrees
    (sza 60, cos = 1/2), any Earth-Sun distance the program can produce and a
    radiance cell of 1, the code gives about a quarter of the spec's value. *)
Theorem reflectance_expression_grouping (esd : R)
    (Hesd : (0.983 <= esd <= 1.017)%R) :
  toar_pixel esd 1856.4104 60 1 =
    Some (VDbl (fmt_f_R PI * 1 * powerRZ (fmt_f_R esd) 2 / 1856.4104 * (1 / 2))) /\
  spec_reflectance 1 esd 1856.4104 60 = (2 * PI * esd ^ 2 / 1856.4104)%R /\
  toar_pixel esd 1856.4104 60 1 <> Some (VDbl (spec_reflectance 1 esd 1856.4104 60)).
Proof.
  assert (HE : Q2R (fmt_f_Q 1856.4104) = 1856.4104%R)
    by (apply Qeq_eqR; vm_compute; reflexivity).
  assert (HS : Q2R (fmt_f_Q 60) = 60%R).
  { rewrite (Qeq_eqR _ 60) by (vm_compute; reflexivity).
    unfold Q2R; cbn [Qnum Qden]. rewrite Rinv_1. ring. }
  assert (Hcos : cos (60 * PI / 180) = (1 / 2)%R).
  { rewrite <- cos_PI3. f_equal. field. }
  assert (Hval : toar_pixel esd 1856.4104 60 1 =
    Some (VDbl (fmt_f_R PI * 1 * powerRZ (fmt_f_R esd) 2 / 1856.4104 * (1 / 2)))).
  { rewrite toar_pixel_value by (vm_compute; reflexivity).
    rewrite HE, HS, Hcos. reflexivity. }
  assert (Hspec : spec_reflectance 1 esd 1856.4104 60 = (2 * PI * esd ^ 2 / 1856.4104)%R).
  { unfold spec_reflectance. rewrite Hcos. field. lra. }
  split; [exact Hval |]. split; [exact Hspec |].
  rewrite Hval, Hspec. intros Heq. injection Heq as Heq.
  pose proof (fmt_f_R_bound PI) as [Hp1 Hp2].
  pose proof (fmt_f_R_bound esd) as [He1 He2].
  pose proof PI2_3_2 as Hpi.
  set (a := fmt_f_R PI) in *. set (f := fmt_f_R esd) in *.
  simpl powerRZ in Heq.
  assert (Hf2 : (f * (f * 1) <= 1.002001 * (esd * esd))%R) by nra.
  assert (Ha : (0 <= a <= 1.001 * PI)%R) by lra.
  assert (Hprod : (a * (f * (f * 1)) <= 1.001 * PI * (1.002001 * (esd * esd)))%R).
  { apply Rmult_le_compat; nra. }
  assert (Hkey : (a * (f * (f * 1)) = 4 * PI * (esd * esd))%R).
  { apply (Rmult_eq_reg_r (/ 1856.4104 * (1 / 2))); [| lra].
    rewrite <- Rmult_assoc. simpl pow in Heq. lra. }
  nra.
Qed.

Lemma reflectance_expression_grouping_witness :
  toar_pixel 1 1856.4104 60 1 <> Some (VDbl (spec_reflectance 1 1 1856.4104 60)).
Proof.
  apply (proj2 (proj2 (reflectance_expression_grouping 1 ltac:(lra)))).
Defined.

(** ** C6 *)

(** C6 (as the code does it): a non-empty [doy] decides the Earth-Sun
    distance, [jd_to_esd(int(doy))], whatever [utc] holds, so giving both is
    accepted; such a [doy] never leads to [grass.fatal] (a [doy] that is not
    an integer raises ValueError from [int()]).  With an empty [doy] and a
    non-empty [utc], the distance is [AcquisitionTime(utc).esd].  The script
    stops with [grass.fatal] exactly when both are empty. *)
Theorem esd_selection_doy_first :
  (forall doy utc1 utc2, doy <> "" -> select_esd doy utc1 = select_esd doy utc2) /\
  (forall doy utc, doy <> "" ->
     select_esd doy utc = (n <- py_int doy ;; jd_to_esd (IZR n)) /\
     select_esd doy utc <> Err GrassFatal) /\
  (forall doy utc n, py_int doy = Ok n -> select_esd doy utc = Ok (esd_formula (IZR n))) /\
  (forall utc, utc <> "" ->
     select_esd "" utc = (a <- make_AcquisitionTime utc ;; Ok (at_esd a))) /\
  (forall doy utc, select_esd doy utc = Err GrassFatal <-> doy = "" /\ utc = "").
Proof.
  split; [| split; [| split; [| split]]].
  - intros [| c r] utc1 utc2 H; [contradiction | reflexivity].
  - intros [| c r] utc H; [contradiction |]. split; [reflexivity |].
    unfold select_esd. cbn [truthy].
    destruct (py_int (String c r)) as [n | e] eqn:E; cbn [bind].
    + rewrite jd_to_esd_ok. discriminate.
    + apply py_int_err in E. subst e. discriminate.
  - exact select_esd_doy_ok.
  - intros [| c r] H; [contradiction | reflexivity].
  - intros doy utc. split.
    + intros H. apply select_esd_err in H as [[_ [Hd Hu]] | H]; [auto | discriminate].
    + intros [-> ->]. reflexivity.
Qed.

Lemma esd_selection_doy_first_witness :
  select_esd "100" nov_utc = select_esd "100" "" /\
  select_esd "x" nov_utc <> Err GrassFatal /\
  select_esd "100" nov_utc = Ok (esd_formula (IZR 100)) /\
  select_esd "" nov_utc = (a <- make_AcquisitionTime nov_utc ;; Ok (at_esd a)) /\
  select_esd "" "" = Err GrassFatal.
Proof.
  destruct esd_selection_doy_first as (H1 & H2 & H3 & H4 & H5).
  split; [apply H1; discriminate |].
  split; [exact (proj2 (H2 "x" nov_utc ltac:(discriminate))) |].
  split; [exact (H3 "100" nov_utc 100%Z eq_refl) |].
  split; [apply H4; discriminate |].
  apply H5. split; reflexivity.
Defined.

(** C6 as stated fails: giving both a day of year and a UTC string is a
    run that succeeds, with the distance of the day of year. *)
Lemma esd_both_inputs_accepted :
  o_doy opts_green_both <> "" /\ o_utc opts_green_both <> "" /\
  select_esd (o_doy opts_green_both) (o_utc opts_green_both) = Ok (esd_formula (IZR 100)) /\
  exists final, main opts_green_both inputs_green = Ok final.
Proof.
  split; [discriminate |]. split; [discriminate |]. split.
  - apply select_esd_doy_ok. reflexivity.
  - apply main_green_runs; reflexivity.
Qed.

(** ** C3 *)




(** * Further properties of the code *)

(** ** Helpers *)

Lemma substring_past_end (a n : nat) (s : string) :
  (String.length s <= a)%nat -> substring a n s = EmptyString.
Proof.
  revert a. induction s as [| c s IH]; intros a H.
  - destruct a, n; reflexivity.
  - destruct a as [| a]; simpl in H; [lia |]. simpl. apply IH. lia.
Qed.

Lemma substring_zero (a : nat) (s : string) : substring a 0 s = EmptyString.
Proof. revert a. induction s as [| c s IH]; intros [| a]; simpl; auto. Qed.

Lemma get_none_length (a : nat) (s : string) :
  String.get a s = None -> (String.length s <= a)%nat.
Proof.
  revert a. induction s as [| c s IH]; intros [| a] H; simpl in *;
    [lia | lia | discriminate | apply IH in H; lia].
Qed.

(** [s[a:a+n]] depends only on the characters at positions [a .. a+n-1]. *)
Lemma substring_ext (a n : nat) (s s' : string) :
  (forall i, (a <= i < a + n)%nat -> String.get i s = String.get i s') ->
  substring a n s = substring a n s'.
Proof.
  revert a n s'. induction s as [| c s IH]; intros a n s' H.
  - rewrite (substring_past_end a n "") by (simpl; lia).
    destruct n as [| n]; [rewrite substring_zero; reflexivity |].
    symmetry. apply substring_past_end, get_none_length.
    rewrite <- (H a ltac:(lia)). destruct a; reflexivity.
  - destruct s' as [| c' s'].
    + rewrite (substring_past_end a n "") by (simpl; lia).
      destruct n as [| n]; [rewrite substring_zero; reflexivity |].
      apply substring_past_end, get_none_length.
      rewrite (H a ltac:(lia)). destruct a; reflexivity.
    + destruct a as [| a].
      * destruct n as [| n]; [reflexivity |]. simpl.
        pose proof (H 0%nat ltac:(lia)) as H0. simpl in H0. injection H0 as ->.
        f_equal. apply IH. intros i Hi. exact (H (S i) ltac:(lia)).
      * simpl. apply IH. intros i Hi. exact (H (S i) ltac:(lia)).
Qed.

Lemma lookup_err (b : string) (e : py_error) : lookup b = Err e -> e = KeyError.
Proof. unfold lookup. destruct (assoc b CF_BW_ESUN); congruence. Qed.

Lemma julian_day_days (y m d : Z) (ut : Q) :
  julian_day y m d ut == inject_Z (jd_days y m d) + ut / 24.0 - 1525.5.
Proof.
  unfold julian_day, jd_days. cbv zeta. rewrite !inject_Z_plus. ring.
Qed.

Lemma julian_day_shift (y m d y' m' d' : Z) (ut : Q) :
  julian_day y' m' d' ut == julian_day y m d ut + inject_Z (jd_days y' m' d' - jd_days y m d).
Proof.
  rewrite !julian_day_days. unfold Z.sub. rewrite inject_Z_plus, inject_Z_opp. ring.
Qed.

Lemma trunc_year (n : Z) :
  (0 <= n)%Z -> py_trunc (365.25 * inject_Z n) = (365 * n + n / 4)%Z.
Proof.
  intros H. change (py_trunc (365.25 * inject_Z n)) with (Z.quot (36525 * n) 100).
  rewrite Z.quot_div_nonneg by lia. Z.to_euclidean_division_equations. lia.
Qed.

(** The [B] term of [julian_day] from one year to the next. *)
Lemma century_term (y : Z) :
  let A := (y / 100)%Z in let A' := ((y + 1) / 100)%Z in
  ((2 - A' + A' / 4) - (2 - A + A / 4) =
   if ((y + 1) mod 100 =? 0)%Z then (if ((y + 1) mod 400 =? 0)%Z then 0 else -1)
   else 0)%Z.
Proof.
  intros A A'. subst A A'.
  destruct ((y + 1) mod 100 =? 0)%Z eqn:E1; [apply Z.eqb_eq in E1 | apply Z.eqb_neq in E1].
  - assert (Hq : (y / 100 = (y + 1) / 100 - 1)%Z) by (Z.to_euclidean_division_equations; lia).
    rewrite Hq. set (q := ((y + 1) / 100)%Z).
    assert (H4 : ((y + 1) mod 400 = 100 * (q mod 4))%Z)
      by (subst q; Z.to_euclidean_division_equations; lia).
    rewrite H4.
    destruct (100 * (q mod 4) =? 0)%Z eqn:E2; [apply Z.eqb_eq in E2 | apply Z.eqb_neq in E2];
      Z.to_euclidean_division_equations; lia.
  - assert (Hq : (y / 100 = (y + 1) / 100)%Z) by (Z.to_euclidean_division_equations; lia).
    rewrite Hq. lia.
Qed.

(** ** Acquisition time *)

(** X2: a UTC string of at most 17 characters (cut before the seconds
    field [utc[17:26]]) is rejected with ValueError. *)
Theorem extract_time_elements_short (utc : string) :
  (String.length utc <= 17)%nat -> extract_time_elements utc = Err ValueError.
Proof.
  intros Hl. unfold extract_time_elements.
  assert (Hs : slice 17 26 utc = EmptyString) by (apply substring_past_end; exact Hl).
  rewrite Hs.
  repeat match goal with
  | |- context [bind (py_int ?s) _] =>
      let E := fresh "E" in
      destruct (py_int s) eqn:E; cbn [bind];
      [| apply py_int_err in E; subst; reflexivity]
  | |- context [let '(_, _) := ?p in _] => destruct p
  end.
  reflexivity.
Qed.

Lemma extract_time_elements_short_witness :
  (String.length "2001_10_18T18:51" <= 17)%nat /\
  extract_time_elements "2001_10_18T18:51" = Err ValueError.
Proof.
  split; [simpl; lia | apply extract_time_elements_short; simpl; lia].
Defined.

(** X3: [extract_time_elements] reads only the characters at positions
    0-3, 5-6, 8-9, 11-12, 14-15 and 17-25: the separators at 4, 7, 10, 13,
    16 and anything from position 26 on are never looked at, so
    ["2001-10-18T..."] and ["2001_10_18T..."] give the same fields. *)
Theorem extract_time_elements_positions (u u' : string) :
  (forall i, (i < 26)%nat -> ~ In i [4; 7; 10; 13; 16]%nat ->
     String.get i u = String.get i u') ->
  extract_time_elements u = extract_time_elements u'.
Proof.
  intros H.
  assert (Hsl : forall a b, (b <= 26)%nat ->
            (forall i, (a <= i < b)%nat -> ~ In i [4; 7; 10; 13; 16]%nat) ->
            slice a b u = slice a b u').
  { intros a b Hb Ha. unfold slice. apply substring_ext.
    intros i Hi. apply H; [lia | apply Ha; lia]. }
  unfold extract_time_elements.
  rewrite (Hsl 0%nat 4%nat), (Hsl 5%nat 7%nat), (Hsl 8%nat 10%nat), (Hsl 11%nat 13%nat),
    (Hsl 14%nat 16%nat), (Hsl 17%nat 26%nat);
    try reflexivity; try lia;
    intros i Hi Hin; simpl in Hin; lia.
Qed.

Lemma extract_time_elements_positions_witness :
  extract_time_elements "2001-10-18T18:51:26.000000Z;" = extract_time_elements doc_utc.
Proof.
  apply extract_time_elements_positions.
  intros i Hi Hn.
  do 26 (destruct i as [| i]; [first [reflexivity | exfalso; apply Hn; simpl; tauto] |]).
  lia.
Defined.

(** X5: with the first of each month as day 1, [julian_day] counts 31, 30,
    31, 30, 31, 31, 30, 31, 30, 31 and 31 days from March to April, ...,
    from December to January (month 13, as [extract_time_elements] writes
    January), for every year. *)
Theorem julian_day_month_lengths (y m : Z) (ut : Q) :
  (3 <= m <= 13)%Z ->
  julian_day y (m + 1) 1 ut ==
    julian_day y m 1 ut +
    inject_Z (nth (Z.to_nat (m - 3)) [31; 30; 31; 30; 31; 31; 30; 31; 30; 31; 31]%Z 0%Z).
Proof.
  intros Hm. rewrite (julian_day_shift y m 1 y (m + 1) 1 ut).
  apply Qplus_comp; [reflexivity |].
  assert (Hd : (jd_days y (m + 1) 1 - jd_days y m 1 =
                py_trunc (30.6001 * inject_Z (m + 1 + 1)) -
                py_trunc (30.6001 * inject_Z (m + 1)))%Z)
    by (unfold jd_days; lia).
  rewrite Hd.
  assert (E : (m = 3 \/ m = 4 \/ m = 5 \/ m = 6 \/ m = 7 \/ m = 8 \/ m = 9 \/
               m = 10 \/ m = 11 \/ m = 12 \/ m = 13)%Z) by lia.
  repeat (destruct E as [-> | E]; [vm_compute; reflexivity |]).
  subst m. vm_compute. reflexivity.
Qed.

Lemma julian_day_month_lengths_witness :
  (3 <= 12 <= 13)%Z /\ julian_day 2001 (12 + 1) 1 0 == julian_day 2001 12 1 0 + inject_Z 31.
Proof.
  assert (H : (3 <= 12 <= 13)%Z) by lia.
  split; [exact H | exact (julian_day_month_lengths 2001 12 0 H)].
Defined.

(** X6: from the first of February (month 14 of the previous year, as
    [extract_time_elements] writes it) to the first of March, [julian_day]
    counts 29 days in a Gregorian leap year and 28 otherwise, for every year
    from -4715 on. *)
Theorem julian_day_february_length (y : Z) (ut : Q) :
  (-4716 <= y)%Z ->
  julian_day (y + 1) 3 1 ut ==
    julian_day y 14 1 ut +
    inject_Z (if (((y + 1) mod 4 =? 0) && negb ((y + 1) mod 100 =? 0)) ||
                 ((y + 1) mod 400 =? 0) then 29 else 28)%Z.
Proof.
  intros Hy. rewrite (julian_day_shift y 14 1 (y + 1) 3 1 ut).
  apply Qplus_comp; [reflexivity |].
  assert (Hd : (jd_days (y + 1) 3 1 - jd_days y 14 1 =
                if (((y + 1) mod 4 =? 0) && negb ((y + 1) mod 100 =? 0)) ||
                   ((y + 1) mod 400 =? 0) then 29 else 28)%Z).
  { unfold jd_days. cbv zeta.
    rewrite !trunc_year by lia.
    replace (py_trunc (30.6001 * inject_Z (3 + 1))) with 122%Z by reflexivity.
    replace (py_trunc (30.6001 * inject_Z (14 + 1))) with 459%Z by reflexivity.
    pose proof (century_term y) as Hc. cbv zeta in Hc.
    assert (H4 : ((y + 1 + 4716) / 4 - (y + 4716) / 4 =
                  if ((y + 1) mod 4 =? 0)%Z then 1 else 0)%Z).
    { destruct ((y + 1) mod 4 =? 0)%Z eqn:E; [apply Z.eqb_eq in E | apply Z.eqb_neq in E];
        Z.to_euclidean_division_equations; lia. }
    destruct ((y + 1) mod 4 =? 0)%Z eqn:E4; [apply Z.eqb_eq in E4 | apply Z.eqb_neq in E4];
    destruct ((y + 1) mod 100 =? 0)%Z eqn:E100; [apply Z.eqb_eq in E100 | apply Z.eqb_neq in E100 | apply Z.eqb_eq in E100 | apply Z.eqb_neq in E100];
    destruct ((y + 1) mod 400 =? 0)%Z eqn:E400; [apply Z.eqb_eq in E400 | apply Z.eqb_neq in E400 | apply Z.eqb_eq in E400 | apply Z.eqb_neq in E400 | apply Z.eqb_eq in E400 | apply Z.eqb_neq in E400 | apply Z.eqb_eq in E400 | apply Z.eqb_neq in E400];
    cbn [andb orb negb] in *;
    try (exfalso; Z.to_euclidean_division_equations; lia);
    lia. }
  rewrite Hd. reflexivity.
Qed.

Lemma julian_day_february_length_witness :
  (-4716 <= 2023)%Z /\ julian_day (2023 + 1) 3 1 0 == julian_day 2023 14 1 0 + inject_Z 29.
Proof.
  assert (H : (-4716 <= 2023)%Z) by lia.
  split; [exact H | exact (julian_day_february_length 2023 0 H)].
Defined.

(** ** The band loop and main() *)





(** ** i.wv.toar.py *)

Lemma shell_parse_rad_cmd (band : string) (k w : Q) :
  parse (Shell.rad_cmd band k w) =
  Some (EDiv (EMul (ECall "double" (EConst (VDbl (Q2R k)))) (EMap (band ++ "_DNs")))
             (EConst (VDbl (Q2R w)))).
Proof. reflexivity. Qed.

Lemma shell_parse_toar_cmd (band : string) (esun : Q) :
  parse (Shell.toar_cmd band esun) =
  Some (EDiv (EMul (EMul (EConst (VDbl (Q2R Shell.PI_sh))) (EMap (band ++ "_Radiance")))
                   (EPow (EConst (VDbl (Q2R Shell.ESD))) (EConst (VInt 2))))
             (EMul (EConst (VDbl (Q2R esun))) (ECall "cos" (EConst (VDbl (Q2R Shell.SZA)))))).
Proof. reflexivity. Qed.

Lemma shell_cos_sza_pos : (0 < cos (Q2R Shell.SZA * PI / 180))%R.
Proof.
  assert (HS : Q2R Shell.SZA = (362 / 10)%R).
  { unfold Shell.SZA, Shell.SEA. rewrite Q2R_minus. unfold Q2R. simpl. field. }
  rewrite HS. pose proof PI_RGT_0. apply cos_gt_0; lra.
Qed.

Lemma shell_pixels (band : string) (k w esun : Q) :
  assoc band Shell.constants = Some (k, w, esun) -> (0 < w)%Q -> (0 < esun)%Q ->
  (forall dn, Shell.rad_pixel band dn = Some (VDbl (Q2R k * to_R dn / Q2R w))) /\
  (forall rad, Shell.toar_pixel band rad =
     Some (VDbl (Q2R Shell.PI_sh * rad * Q2R Shell.ESD ^ 2 /
                 (Q2R esun * cos (Q2R Shell.SZA * PI / 180))))).
Proof.
  intros Ha Hw He. apply Q2R_pos_neq0 in Hw. apply Qlt_Rlt in He.
  rewrite RMicromega.Q2R_0 in He. pose proof shell_cos_sza_pos as Hc.
  split.
  - intros dn. unfold Shell.rad_pixel. rewrite Ha, shell_parse_rad_cmd. cbn [eval].
    rewrite String.eqb_refl. unfold call. cbn [String.eqb Ascii.eqb Bool.eqb].
    unfold arith, vdiv. destruct dn as [z | x]; cbn [to_R];
      (destruct (Req_EM_T (Q2R w) 0) as [H0 | _]; [contradiction | reflexivity]).
  - intros rad. unfold Shell.toar_pixel. rewrite Ha, shell_parse_toar_cmd. cbn [eval].
    rewrite String.eqb_refl. unfold call. cbn [String.eqb Ascii.eqb Bool.eqb].
    unfold vpow, arith, vdiv. cbn [to_R Z.ltb Z.compare].
    destruct (Req_EM_T (Q2R esun * cos (Q2R Shell.SZA * PI / 180)) 0) as [H0 | _].
    + exfalso. pose proof (Rmult_lt_0_compat _ _ He Hc). lra.
    + simpl powerRZ. rewrite Rmult_1_r. do 3 f_equal. ring.
Qed.

(** X12: in [i.wv.toar.py], for every band of [Spectral_Bands], the
    radiance is [K * DN / Width] and the reflectance is
    [PI * radiance * ESD^2 / (Esun * cos(SZA))], with cos(SZA) in the
    denominator ([SZA] in degrees, [PI = 3.14159265358]). *)
Theorem shell_radiance_reflectance (band : string) :
  In band Shell.Spectral_Bands ->
  exists k w esun, assoc band Shell.constants = Some (k, w, esun) /\
  (forall dn, Shell.rad_pixel band dn = Some (VDbl (Q2R k * to_R dn / Q2R w))) /\
  (forall rad, Shell.toar_pixel band rad =
     Some (VDbl (Q2R Shell.PI_sh * rad * Q2R Shell.ESD ^ 2 /
                 (Q2R esun * cos (Q2R Shell.SZA * PI / 180))))).
Proof.
  intros H. cbn [Shell.Spectral_Bands In] in H.
  repeat (destruct H as [<- | H];
          [do 3 eexists; split; [reflexivity |];
           apply shell_pixels; [reflexivity | vm_compute; reflexivity | vm_compute; reflexivity] |]).
  destruct H.
Qed.

Lemma shell_radiance_reflectance_witness :
  In "Green" Shell.Spectral_Bands /\
  exists k w esun, assoc "Green" Shell.constants = Some (k, w, esun) /\
  (forall dn, Shell.rad_pixel "Green" dn = Some (VDbl (Q2R k * to_R dn / Q2R w))) /\
  (forall rad, Shell.toar_pixel "Green" rad =
     Some (VDbl (Q2R Shell.PI_sh * rad * Q2R Shell.ESD ^ 2 /
                 (Q2R esun * cos (Q2R Shell.SZA * PI / 180))))).
Proof.
  assert (H : In "Green" Shell.Spectral_Bands) by (simpl; tauto).
  split; [exact H | exact (shell_radiance_reflectance "Green" H)].
Defined.

(** X13: [i.wv.toar.py] loops over exactly the bands of [CF_BW_ESUN], and
    for every name its constants K, Width and Esun equal the table's
    calibration factor, bandwidth and Esun; a name missing from one is
    missing from the other. *)
Theorem shell_constants_match_table :
  Shell.Spectral_Bands = map fst CF_BW_ESUN /\
  forall band,
  match assoc band Shell.constants, lookup band with
  | Some (k, w, esun), Ok (bw, esun', acf) => k == acf /\ w == bw /\ esun == esun'
  | None, Err _ => True
  | _, _ => False
  end.
Proof.
  split; [reflexivity |]. intros band.
  destruct (in_dec String.string_dec band band_names) as [Hin | Hout].
  - cbn [band_names In] in Hin.
    repeat (destruct Hin as [<- | Hin]; [vm_compute; repeat split; reflexivity |]).
    destruct Hin.
  - assert (H1 : assoc band Shell.constants = None)
      by (apply assoc_None_iff; exact Hout).
    assert (H2 : assoc band CF_BW_ESUN = None)
      by (apply assoc_None_iff; exact Hout).
    unfold lookup. rewrite H1, H2. exact I.
Qed.

(** ** jd_to_esd *)

Lemma esd_formula_cos (jd : R) :
  esd_formula jd =
  (1.00014 - 0.01671 * cos (radians (357.529 + 0.98560028 * (jd - 2451545.0)))
   - 0.00014 * (2 * cos (radians (357.529 + 0.98560028 * (jd - 2451545.0))) ^ 2 - 1))%R.
Proof. unfold esd_formula. cbv zeta. rewrite cos_2a_cos. ring. Qed.

(** X14: [jd_to_esd] returns values between 0.98329 and 1.01671 AU, and
    both ends are reached (perihelion, [g = 360], and aphelion,
    [g = 180]). *)
Theorem jd_to_esd_exact_range :
  (forall jd d, jd_to_esd jd = Ok d -> (0.98329 <= d <= 1.01671)%R) /\
  (exists jd, jd_to_esd jd = Ok 0.98329%R) /\
  (exists jd, jd_to_esd jd = Ok 1.01671%R).
Proof.
  split; [| split].
  - intros jd d H. rewrite jd_to_esd_ok in H. injection H as <-.
    rewrite esd_formula_cos.
    set (c := cos _). pose proof (COS_bound (radians (357.529 + 0.98560028 * (jd - 2451545.0))))
      as [Hl Hu]. fold c in Hl, Hu.
    split; nra.
  - exists (2451545.0 + (360 - 357.529) / 0.98560028)%R.
    rewrite jd_to_esd_ok. f_equal. rewrite esd_formula_cos.
    replace (357.529 + 0.98560028 * (2451545.0 + (360 - 357.529) / 0.98560028 - 2451545.0))%R
      with 360%R by (field; lra).
    replace (radians 360) with (2 * PI)%R by (unfold radians; field).
    rewrite cos_2PI. lra.
  - exists (2451545.0 + (180 - 357.529) / 0.98560028)%R.
    rewrite jd_to_esd_ok. f_equal. rewrite esd_formula_cos.
    replace (357.529 + 0.98560028 * (2451545.0 + (180 - 357.529) / 0.98560028 - 2451545.0))%R
      with 180%R by (field; lra).
    replace (radians 180) with PI by (unfold radians; field).
    rewrite cos_PI. lra.
Qed.

(** X15: the distance [jd_to_esd] computes repeats exactly every
    [360 / 0.98560028] days (about 365.2596, one full turn of the mean
    anomaly [g]). *)
Theorem jd_to_esd_periodic (jd : R) :
  jd_to_esd (jd + 360 / 0.98560028) = jd_to_esd jd.
Proof.
  rewrite !jd_to_esd_ok. f_equal. rewrite !esd_formula_cos.
  replace (radians (357.529 + 0.98560028 * (jd + 360 / 0.98560028 - 2451545.0)))
    with (radians (357.529 + 0.98560028 * (jd - 2451545.0)) + 2 * INR 1 * PI)%R
    by (unfold radians; simpl INR; field; lra).
  rewrite cos_period. reflexivity.
Qed.
